(** * mini-editor: the text buffer, cursor navigation and edit dispatch

    Shallow embedding of [src/src/main.rs] (the [Buffer] impl, [save_to_file]'s
    serialisation, [get_next_cursor], [apply_command], the drawing done by
    [Display] and the event loop of [main]).

    Modelling conventions:
    - a Rust [char] is an [ascii]; a [Vec<char>] line and a [&str]/[String]
      are both [list ascii] (collecting [chars()] into a [String] and back is
      the identity);
    - operations that can panic ([unwrap] on [None], [Vec::insert] past the end,
      [Vec::remove] / indexing out of range, a [usize] subtraction below zero)
      return [option]: [None] is the panic, [Some] carries the mutated buffer
      and the return value. *)

From Stdlib Require Import Ascii String List Arith Lia Bool.
Import ListNotations.


Notation "x <- m ;; k" :=
  (match m with Some x => k | None => None end)
  (at level 61, m at next level, right associativity).

(** ** Characters *)

Definition nl : ascii := "010"%char.
Definition cr : ascii := "013"%char.
Definition space : ascii := " "%char.

(** ** Vec operations, with their panics *)
Section Vec.
Context {A : Type}.

(** [*v.get_mut(i).unwrap() = a] : replace the element at index [i]. *)
Fixpoint replace_nth (i : nat) (a : A) (v : list A) : list A :=
  match v, i with
  | [], _ => []
  | _ :: t, O => a :: t
  | h :: t, S i' => h :: replace_nth i' a t
  end.

(** [Vec::insert]: panics when [index > len]. *)
Fixpoint vec_insert (i : nat) (a : A) (v : list A) : option (list A) :=
  match i, v with
  | O, _ => Some (a :: v)
  | S i', h :: t => t' <- vec_insert i' a t ;; Some (h :: t')
  | S _, [] => None
  end.

(** [Vec::remove]: panics when [index >= len]. *)
Fixpoint vec_remove (i : nat) (v : list A) : option (list A) :=
  match i, v with
  | _, [] => None
  | O, _ :: t => Some t
  | S i', h :: t => t' <- vec_remove i' t ;; Some (h :: t')
  end.
End Vec.

(** ** Data model *)

Abbreviation line := (list ascii) (only parsing).

Record Buffer := mkBuffer { data : list line }.

Record Cursor := Cursor_new { x : nat; y : nat }.

Module BufferChanges.
Inductive t :=
| Char (p : nat * nat)
| Lines (l : list nat)
| Buffer
| None.
End BufferChanges.

Module Key.
Inductive t :=
| Up | Down | Left | Right
| Char (c : ascii)
| Enter | Backspace
| Other (code : nat).  (** every other rustbox key *)
End Key.

(** ** [str::lines], as used by [Buffer::from_string]

    [str::lines] is [split_inclusive('\n')] followed, on every piece, by
    stripping a trailing ['\n'] and then, only if one was stripped, a
    trailing ['\r'] (current [std] behaviour: a lone final ['\r'] is kept). *)

Fixpoint split_inclusive (s : list ascii) : list (list ascii) :=
  match s with
  | [] => []
  | c :: t =>
      if ascii_dec c nl then [c] :: split_inclusive t
      else match split_inclusive t with
           | [] => [[c]]
           | p :: ps => (c :: p) :: ps
           end
  end.

(** [str::strip_suffix] with a one-character pattern. *)
Definition strip_suffix (c : ascii) (s : list ascii) : option (list ascii) :=
  match rev s with
  | d :: r => if ascii_dec d c then Some (rev r) else None
  | [] => None
  end.

Definition line_of_piece (p : list ascii) : list ascii :=
  match strip_suffix nl p with
  | None => p
  | Some q => match strip_suffix cr q with
              | None => q
              | Some q' => q'
              end
  end.

Definition lines (s : list ascii) : list (list ascii) :=
  map line_of_piece (split_inclusive s).

(** ** [impl Buffer] *)

Definition Buffer_new : Buffer := mkBuffer [].

(** [string.lines().map(|line| line.chars().collect()).collect()] *)
Definition from_string (s : list ascii) : Buffer :=
  mkBuffer (map (fun l => l) (lines s)).

Definition count_lines (b : Buffer) : nat := length (data b).

Definition get_line (b : Buffer) (line_number : nat) : list ascii :=
  match nth_error (data b) line_number with
  | Some l => l
  | None => []
  end.

Definition get_line_length (b : Buffer) (line_number : nat) : nat :=
  if length (data b) <=? line_number then 0
  else match nth_error (data b) line_number with
       | Some l => length l
       | None => 0
       end.

(** [while line_number + 1 > self.count_lines() || self.count_lines() == 0
    { self.data.push(Vec::new()) }]; the loop runs at most
    [line_number + 1] times, which is the fuel. *)
Fixpoint fill_loop (fuel line_number : nat) (d : list line) : list line :=
  match fuel with
  | O => d
  | S f =>
      if (length d <? line_number + 1) || (length d =? 0)
      then fill_loop f line_number (d ++ [[]])
      else d
  end.

Definition fill_lines (b : Buffer) (line_number : nat) : Buffer :=
  mkBuffer (fill_loop (S line_number) line_number (data b)).

(** [while x > line.len() { line.push(' '); }]; at most [x] iterations. *)
Fixpoint pad_loop (fuel x : nat) (l : line) : line :=
  match fuel with
  | O => l
  | S f => if length l <? x then pad_loop f x (l ++ [space]) else l
  end.

Definition write_char (b : Buffer) (cursor : Cursor) (character : ascii)
  : option (Buffer * BufferChanges.t) :=
  let '(Cursor_new x y) := cursor in
  let b := fill_lines b y in
  l <- nth_error (data b) y ;;                      (* get_mut(y).unwrap() *)
  let l := pad_loop x x l in
  l' <- (if x <? length l then vec_insert x character l
         else Some (l ++ [character])) ;;
  Some (mkBuffer (replace_nth y l' (data b)), BufferChanges.Lines [y]).

Definition insert_line (b : Buffer) (line_number : nat) : option Buffer :=
  d <- vec_insert line_number [] (data b) ;; Some (mkBuffer d).

Definition get_line_data_from_offset (b : Buffer) (line_number offset : nat)
  : option (list ascii) :=
  match nth_error (data b) line_number with
  | Some l => if offset <=? length l then Some (skipn offset l) else None
  | None => None
  end.

Definition truncate_line (b : Buffer) (line_number offset : nat) : option Buffer :=
  l <- nth_error (data b) line_number ;;
  Some (mkBuffer (replace_nth line_number (firstn offset l) (data b))).

Definition newline (b : Buffer) (cursor : Cursor) : option (Buffer * BufferChanges.t) :=
  let '(Cursor_new x y) := cursor in
  let b := fill_lines b y in
  b <- insert_line b (y + 1) ;;
  match get_line_data_from_offset b y x with
  | Some rest =>
      b <- truncate_line b y x ;;
      new_line <- nth_error (data b) (y + 1) ;;
      Some (mkBuffer (replace_nth (y + 1) (new_line ++ rest) (data b)),
            BufferChanges.Buffer)
  | None => Some (b, BufferChanges.None)
  end.

Definition remove_line (b : Buffer) (line_number : nat) : option Buffer :=
  if line_number <? count_lines b then
    d <- vec_remove line_number (data b) ;; Some (mkBuffer d)
  else Some b.

(** [&mut self.data[line_number]] panics out of range. *)
Definition slurp_next_line (b : Buffer) (line_number : nat) : option Buffer :=
  let next_line_content := get_line b (line_number + 1) in
  first_line <- nth_error (data b) line_number ;;
  Some (mkBuffer (replace_nth line_number (first_line ++ next_line_content)
                              (data b))).

Definition backspace (b : Buffer) (cursor : Cursor) : option (Buffer * BufferChanges.t) :=
  let '(Cursor_new x y) := cursor in
  r1 <- (match nth_error (data b) y with
         | Some l =>
             if (x <? length l + 1) && (0 <? x) then
               l' <- vec_remove (x - 1) l ;;
               Some (mkBuffer (replace_nth y l' (data b)), BufferChanges.Buffer)
             else Some (b, BufferChanges.None)
         | None => Some (b, BufferChanges.None)
         end) ;;
  let '(b, result) := r1 in
  if (x =? 0) && (0 <? y) then
    b <- slurp_next_line b (y - 1) ;;
    b <- remove_line b y ;;
    Some (b, BufferChanges.Buffer)
  else Some (b, result).

(** The string written by [save_to_file]: every line followed by ['\n']. *)
Definition serialize (b : Buffer) : list ascii :=
  flat_map (fun l => l ++ [nl]) (data b).

(** ** [get_next_cursor]

    The [usize] subtractions [x-1] and [y-1] never underflow: each is reached
    only when the validity gate established a positive operand.
    [unreachable!()] is the [None] of the result. *)
Definition valid_movement (b : Buffer) (cursor : Cursor) (direction : Key.t) : bool :=
  let '(Cursor_new x y) := cursor in
  match direction with
  | Key.Up => 0 <? y
  | Key.Down => y + 1 <? count_lines b
  | Key.Left => (0 <? x) || (0 <? y)
  | Key.Right => (x <? get_line_length b y) || (y <? count_lines b)
  | _ => false
  end.

Definition get_next_cursor (current_cursor : Cursor) (b : Buffer) (direction : Key.t)
  : option Cursor :=
  let '(Cursor_new x y) := current_cursor in
  if negb (valid_movement b current_cursor direction) then Some (Cursor_new x y)
  else match direction with
  | Key.Left =>
      if (0 <? y) && (x =? 0) then Some (Cursor_new (get_line_length b (y - 1)) (y - 1))
      else Some (Cursor_new (x - 1) y)
  | Key.Right =>
      if (y + 1 <? count_lines b) && (x =? get_line_length b y) then Some (Cursor_new 0 (y + 1))
      else Some (Cursor_new (x + 1) y)
  | Key.Up =>
      if get_line_length b (y - 1) <? x then Some (Cursor_new (get_line_length b (y - 1)) (y - 1))
      else Some (Cursor_new x (y - 1))
  | Key.Down =>
      if get_line_length b (y + 1) <? x then Some (Cursor_new (get_line_length b (y + 1)) (y + 1))
      else Some (Cursor_new x (y + 1))
  | _ => None
  end.

(** ** [apply_command]: the mutated buffer, the changes and the new cursor. *)
Definition apply_command (key : Key.t) (b : Buffer) (cursor : Cursor)
  : option (Buffer * BufferChanges.t * Cursor) :=
  match key with
  | Key.Char character =>
      r <- write_char b cursor character ;;
      Some (fst r, snd r, Cursor_new (x cursor + 1) (y cursor))
  | Key.Enter =>
      r <- newline b cursor ;;
      let new_cursor := Cursor_new 0 (y cursor + 1) in
      Some (fst r, snd r, new_cursor)
  | Key.Backspace =>
      let previous_line_length :=
        if 0 <? y cursor then get_line_length b (y cursor - 1) else 0 in
      r <- backspace b cursor ;;
      let new_cursor :=
        if 0 <? x cursor then Cursor_new (x cursor - 1) (y cursor)
        else if 0 <? y cursor then Cursor_new previous_line_length (y cursor - 1)
        else Cursor_new (x cursor) (y cursor) in
      Some (fst r, snd r, new_cursor)
  | _ => Some (b, BufferChanges.None, Cursor_new (x cursor) (y cursor))
  end.

(** ** Invariant: no line holds a line terminator *)
Definition line_ok (l : line) : Prop := ~ In nl l.
Definition buffer_ok (b : Buffer) : Prop := Forall line_ok (data b).

(** No ["\r\n"] pair in a string. *)
Fixpoint crlf_free (s : list ascii) : bool :=
  match s with
  | c :: ((d :: _) as t) =>
      negb (Ascii.eqb c cr && Ascii.eqb d nl) && crlf_free t
  | _ => true
  end.

(** A cursor on an existing row, at most at its end of line. *)
Definition cursor_valid (b : Buffer) (c : Cursor) : Prop :=
  y c < count_lines b /\ x c <= get_line_length b (y c).

(** ** [Display::render_line]: what it prints *)

Inductive Color := Default | Black | Red | Green | Yellow | Blue | Magenta | Cyan | White.

(** One [rustbox.print] call of [render_line] (all on the same screen row, on
    a black background): its column, foreground colour and text. *)
Definition PrintCall : Type := nat * Color * list ascii.

Definition print_text (p : PrintCall) : list ascii := snd p.
Definition print_color (p : PrintCall) : Color := snd (fst p).

Definition RUST_KEYWORDS : list (list ascii) :=
  map list_ascii_of_string
    ["abstract"; "alignof"; "as"; "become"; "box";
     "break"; "const"; "continue"; "crate"; "do";
     "else"; "enum"; "extern"; "false"; "final";
     "fn"; "for"; "if"; "impl"; "in"; "let"; "loop";
     "macro"; "match"; "mod"; "move"; "mut"; "offsetof";
     "override"; "priv"; "proc"; "pub"; "pure"; "ref";
     "return"; "Self"; "self"; "sizeof"; "static";
     "struct"; "super"; "trait"; "true"; "type";
     "typeof"; "unsafe"; "unsized"; "use"; "virtual";
     "where"; "while"; "yield"]%string.

Definition RUST_SYMBOLS : list (list ascii) :=
  map list_ascii_of_string
    [":"; ";"; "("; ")"; "["; "]"; "{"; "}"; "="; "<"; ">"; "->"; String "034"%char EmptyString]%string.

(** [HashSet::contains] *)
Definition contains (set : list (list ascii)) (w : list ascii) : bool :=
  if in_dec (list_eq_dec ascii_dec) w set then true else false.

Definition str_eqb (a b : list ascii) : bool :=
  if list_eq_dec ascii_dec a b then true else false.

Fixpoint starts_with (prefix w : list ascii) : bool :=
  match prefix, w with
  | [], _ => true
  | p :: ps, c :: cs => Ascii.eqb p c && starts_with ps cs
  | _ :: _, [] => false
  end.

(** [str::split(" ")]: [n] separators give [n + 1] pieces. *)
Fixpoint split_space (s : list ascii) : list (list ascii) :=
  match s with
  | [] => [[]]
  | c :: t =>
      if ascii_dec c space then [] :: split_space t
      else match split_space t with
           | w :: ws => (c :: w) :: ws
           | [] => [[c]]
           end
  end.

Definition quote : ascii := "034"%char.
Definition apostrophe : ascii := "039"%char.
Definition comment_start : list ascii := ["/"; "/"]%char.

Definition clear_line (width : nat) : list PrintCall :=
  [(0, White, repeat space width)].

(** [render_word]: the print and [word.len()] of the text printed. *)
Definition render_word (word : list ascii) (offset : nat) (color : Color)
  : list PrintCall * nat :=
  let word := if length word =? 0 then [space]
              else if negb (offset =? 0) then space :: word
              else word in
  ([(offset, color, word)], length word).

(** The colour of one character of the char-by-char path, and the new
    [is_string] and [is_char]. *)
Definition paint (is_string is_char : bool) (character : ascii) : Color * bool * bool :=
  if Ascii.eqb character quote && negb is_string && negb is_char then (Yellow, true, is_char)
  else if is_string && Ascii.eqb character quote then (Yellow, false, is_char)
  else if is_string || is_char then (Yellow, is_string, is_char)
  else if Ascii.eqb character apostrophe && negb is_char then (Yellow, is_string, true)
  else if is_char && Ascii.eqb character apostrophe then (Yellow, is_string, false)
  else if contains RUST_SYMBOLS [character] then (Red, is_string, is_char)
  else (Default, is_string, is_char).

(** [for character in word.chars() { ...; offset += 1; }] *)
Fixpoint render_chars (offset : nat) (is_string is_char : bool) (word : list ascii)
  : list PrintCall * nat * bool * bool :=
  match word with
  | [] => ([], offset, is_string, is_char)
  | character :: rest =>
      let '(color, is_string, is_char) := paint is_string is_char character in
      let '(prints, offset', is_string, is_char) :=
        render_chars (S offset) is_string is_char rest in
      ((offset, color, [character]) :: prints, offset', is_string, is_char)
  end.

(** [for word in line.split(" ") { ... }] *)
Fixpoint render_words (words : list (list ascii)) (offset : nat)
    (is_comment is_string is_char : bool) : list PrintCall :=
  match words with
  | [] => []
  | word :: rest =>
      if is_comment || str_eqb word comment_start || starts_with comment_start word then
        let '(prints, n) := render_word word offset Blue in
        prints ++ render_words rest (offset + n) true is_string is_char
      else if contains RUST_KEYWORDS word then
        let '(prints, n) := render_word word offset Green in
        prints ++ render_words rest (offset + n) is_comment is_string is_char
      else if length word =? 0 then
        let '(prints, n) := render_word word offset Green in
        prints ++ render_words rest (offset + n) is_comment is_string is_char
      else
        let '(space_print, offset) :=
          if negb (offset =? 0) then ([(offset, Default, [space])], offset + 1)
          else ([], offset) in
        let '(prints, offset, is_string, is_char) :=
          render_chars offset is_string is_char word in
        space_print ++ prints ++ render_words rest offset is_comment is_string is_char
  end.

Definition render_line (width : nat) (line : list ascii) : list PrintCall :=
  clear_line width ++ render_words (split_space line) 0 false false false.


Definition leading_space_or_empty (line : list ascii) : bool :=
  match line with
  | [] => true
  | c :: _ => if ascii_dec c space then true else false
  end.


(** A print that is neither red nor, unless it is a separating space, in the
    default colour. *)
Definition not_plain (p : PrintCall) : Prop :=
  print_color p <> Red /\ (print_color p = Default -> print_text p = [space]).

(** ** The event loop of [main] *)

(** The events [main] distinguishes: [Key::Ctrl(c)], every other key of a
    [KeyEvent], and every other result of [poll_event]. *)
Module Event.
Inductive t :=
| Ctrl (c : ascii)
| Key (k : Key.t)
| Other.
End Event.















(** * Lemmas about the Vec operations *)

Section VecFacts.
Context {A : Type}.

Lemma length_replace_nth (i : nat) (a : A) (v : list A) :
  length (replace_nth i a v) = length v.
Proof.
  revert i; induction v as [|h t IH]; intros [|i]; simpl; auto.
Qed.

Lemma replace_nth_spec (i : nat) (a : A) (v : list A) :
  i < length v -> replace_nth i a v = firstn i v ++ a :: skipn (S i) v.
Proof.
  revert i; induction v as [|h t IH]; intros [|i] Hi; simpl in *; try lia; auto.
  rewrite IH by lia; reflexivity.
Qed.

Lemma replace_nth_app (pre : list A) (h a : A) (post : list A) :
  replace_nth (length pre) a (pre ++ h :: post) = pre ++ a :: post.
Proof. induction pre as [|p pre IH]; simpl; congruence. Qed.

Lemma Forall_replace_nth (P : A -> Prop) (i : nat) (a : A) (v : list A) :
  Forall P v -> P a -> Forall P (replace_nth i a v).
Proof.
  revert i; induction v as [|h t IH]; intros [|i] Hv Ha; simpl; auto;
    inversion Hv; subst; constructor; auto.
Qed.

Lemma vec_insert_spec (i : nat) (a : A) (v : list A) :
  i <= length v -> vec_insert i a v = Some (firstn i v ++ a :: skipn i v).
Proof.
  revert i; induction v as [|h t IH]; intros [|i] Hi; simpl in *; try lia; auto.
  rewrite IH by lia; reflexivity.
Qed.

Lemma vec_remove_spec (i : nat) (v : list A) :
  i < length v -> vec_remove i v = Some (firstn i v ++ skipn (S i) v).
Proof.
  revert i; induction v as [|h t IH]; intros [|i] Hi; simpl in *; try lia; auto.
  rewrite IH by lia; reflexivity.
Qed.

Lemma vec_remove_app (pre : list A) (h : A) (post : list A) :
  vec_remove (length pre) (pre ++ h :: post) = Some (pre ++ post).
Proof. induction pre as [|p pre IH]; simpl; [reflexivity | rewrite IH; reflexivity]. Qed.

Lemma Forall_firstn (P : A -> Prop) (i : nat) (v : list A) :
  Forall P v -> Forall P (firstn i v).
Proof.
  revert i; induction v as [|h t IH]; intros [|i] H; simpl; auto.
  inversion H; subst; constructor; auto.
Qed.

Lemma Forall_skipn (P : A -> Prop) (i : nat) (v : list A) :
  Forall P v -> Forall P (skipn i v).
Proof.
  revert i; induction v as [|h t IH]; intros [|i] H; simpl; auto.
  inversion H; subst; auto.
Qed.
End VecFacts.

(** * The fill-to and padding loops *)

Lemma fill_loop_spec (fuel n : nat) (d : list line) :
  S n - length d <= fuel ->
  fill_loop fuel n d = d ++ repeat [] (S n - length d).
Proof.
  revert d; induction fuel as [|f IH]; intros d Hf; cbn [fill_loop].
  - replace (S n - length d) with 0 by lia. simpl; rewrite app_nil_r; reflexivity.
  - destruct (length d <? n + 1) eqn:Hlt; cbn [orb].
    + apply Nat.ltb_lt in Hlt.
      rewrite IH by (rewrite length_app; cbn [length]; lia).
      rewrite length_app; cbn [length].
      replace (S n - length d) with (S (S n - (length d + 1))) by lia.
      rewrite <- app_assoc; reflexivity.
    + apply Nat.ltb_ge in Hlt.
      destruct (length d =? 0) eqn:Hz.
      * apply Nat.eqb_eq in Hz; lia.
      * replace (S n - length d) with 0 by lia. simpl; rewrite app_nil_r; reflexivity.
Qed.

(** Fill-to appends empty lines until row [n] exists. *)
Lemma fill_lines_spec (b : Buffer) (n : nat) :
  data (fill_lines b n) = data b ++ repeat [] (S n - length (data b)).
Proof. unfold fill_lines; apply fill_loop_spec; lia. Qed.

Lemma fill_lines_length (b : Buffer) (n : nat) :
  length (data (fill_lines b n)) = Nat.max (S n) (length (data b)).
Proof. rewrite fill_lines_spec, length_app, repeat_length; lia. Qed.

Lemma fill_lines_ok (b : Buffer) (n : nat) :
  buffer_ok b -> buffer_ok (fill_lines b n).
Proof.
  unfold buffer_ok; rewrite fill_lines_spec; intros H.
  apply Forall_app; split; auto.
  apply Forall_forall; intros l Hl; apply repeat_spec in Hl; subst.
  intros [].
Qed.

Lemma pad_loop_spec (fuel x : nat) (l : line) :
  x - length l <= fuel -> pad_loop fuel x l = l ++ repeat space (x - length l).
Proof.
  revert l; induction fuel as [|f IH]; intros l Hf; simpl.
  - replace (x - length l) with 0 by lia. simpl; rewrite app_nil_r; reflexivity.
  - destruct (length l <? x) eqn:Hlt.
    + apply Nat.ltb_lt in Hlt.
      rewrite IH by (rewrite length_app; cbn [length]; lia).
      rewrite length_app; simpl.
      replace (x - length l) with (S (x - (length l + 1))) by lia.
      rewrite <- app_assoc; reflexivity.
    + apply Nat.ltb_ge in Hlt.
      replace (x - length l) with 0 by lia. simpl; rewrite app_nil_r; reflexivity.
Qed.

(** The row [y] that [write_char] and [newline] operate on, after fill-to. *)
Definition filled_row (b : Buffer) (y : nat) : line :=
  nth y (data (fill_lines b y)) [].

Lemma nth_error_filled_row (b : Buffer) (y : nat) :
  nth_error (data (fill_lines b y)) y = Some (filled_row b y).
Proof.
  unfold filled_row; apply nth_error_nth'. rewrite fill_lines_length; lia.
Qed.

(** [write_char] in closed form: fill-to, pad with spaces, insert at [x]. *)
Lemma write_char_spec (b : Buffer) (c : Cursor) (ch : ascii) :
  let l := filled_row b (y c) ++ repeat space (x c - length (filled_row b (y c))) in
  write_char b c ch =
  Some (mkBuffer (replace_nth (y c) (firstn (x c) l ++ ch :: skipn (x c) l)
                              (data (fill_lines b (y c)))),
        BufferChanges.Lines [y c]).
Proof.
  destruct c as [cx cy]; cbn [x y].
  unfold write_char; cbn -[fill_lines pad_loop vec_insert replace_nth nth_error filled_row Nat.ltb].
  rewrite nth_error_filled_row.
  rewrite pad_loop_spec by lia.
  set (l := filled_row b cy ++ repeat space (cx - length (filled_row b cy))).
  assert (Hlen : cx <= length l)
    by (unfold l; rewrite length_app, repeat_length; lia).
  destruct (cx <? length l) eqn:Hlt.
  - apply Nat.ltb_lt in Hlt. rewrite vec_insert_spec by lia. reflexivity.
  - apply Nat.ltb_ge in Hlt.
    rewrite firstn_all2 by lia. rewrite skipn_all2 by lia. reflexivity.
Qed.

(** * Claims *)

(** ** C7 *)

(** C7: [write_char] (insert_char) at [(x, y)] first fills the buffer with
    empty lines up to row [y], pads row [y] with spaces up to column [x],
    inserts the character at index [x] (the rest of the row moves right), and
    reports [Lines [y]]; inserting ['x'] at [(10, 10)] into the empty buffer
    gives 11 lines, row 10 being ten spaces and ["x"]. *)
Theorem write_char_pads_and_inserts (b : Buffer) (c : Cursor) (ch : ascii) :
  (let d := data b ++ repeat [] (S (y c) - length (data b)) in
   let row := nth (y c) d [] in
   let padded := row ++ repeat space (x c - length row) in
   write_char b c ch =
   Some (mkBuffer (firstn (y c) d
                   ++ (firstn (x c) padded ++ ch :: skipn (x c) padded)
                   :: skipn (S (y c)) d),
         BufferChanges.Lines [y c]))
  /\ write_char Buffer_new (Cursor_new 10 10) "x"%char =
     Some (mkBuffer (repeat [] 10 ++ [repeat space 10 ++ ["x"%char]]),
           BufferChanges.Lines [10]).
Proof.
  split.
  - cbv zeta. rewrite write_char_spec. unfold filled_row. rewrite fill_lines_spec.
    rewrite replace_nth_spec by (rewrite length_app, repeat_length; lia).
    reflexivity.
  - vm_compute. reflexivity.
Qed.

(** * Backspace *)

Lemma nth_error_decompose_prev {A : Type} (d : list A) (n : nat) (l : A) :
  nth_error d (S n) = Some l ->
  exists pre p post, d = pre ++ p :: l :: post /\ length pre = n.
Proof.
  intros H. apply nth_error_split in H as (pre' & post & -> & Hlen).
  destruct (exists_last (l := pre')) as (pre & p & ->).
  { intros ->; discriminate. }
  exists pre, p, post. rewrite <- app_assoc. split; [reflexivity|].
  rewrite length_app in Hlen; simpl in Hlen; lia.
Qed.

Lemma firstn_prefix {A : Type} (pre post : list A) :
  firstn (length pre) (pre ++ post) = pre.
Proof. rewrite firstn_app, Nat.sub_diag, firstn_all; simpl; apply app_nil_r. Qed.

Lemma skipn_prefix {A : Type} (pre post : list A) (k : nat) :
  skipn (length pre + k) (pre ++ post) = skipn k post.
Proof.
  rewrite skipn_app, skipn_all2 by lia. simpl. f_equal; lia.
Qed.

(** ** C8 *)

(** C8: with row [y] present and [x] at most its length, [backspace] at
    [(x, y)]: for [x > 0] removes the character at index [x - 1] of row [y],
    the line count unchanged, and reports [Buffer] (the spec's [Whole]); for
    [x = 0 < y] appends row [y] to row [y - 1], deletes row [y] and reports
    [Buffer]; at [(0, 0)] it changes nothing and reports [None]. *)
Theorem backspace_in_row (b : Buffer) (c : Cursor) (l : line) :
  nth_error (data b) (y c) = Some l -> x c <= length l ->
  (0 < x c ->
   backspace b c =
   Some (mkBuffer (firstn (y c) (data b)
                   ++ (firstn (x c - 1) l ++ skipn (x c) l)
                   :: skipn (S (y c)) (data b)),
         BufferChanges.Buffer))
  /\ (x c = 0 -> 0 < y c ->
      backspace b c =
      Some (mkBuffer (firstn (y c - 1) (data b)
                      ++ (nth (y c - 1) (data b) [] ++ l)
                      :: skipn (S (y c)) (data b)),
            BufferChanges.Buffer))
  /\ (x c = 0 -> y c = 0 -> backspace b c = Some (b, BufferChanges.None)).
Proof.
  destruct b as [d], c as [cx cy]; cbn [x y data]; intros Hl Hx.
  assert (Hy : cy < length d) by (apply nth_error_Some; congruence).
  split; [|split].
  - intros Hpos. unfold backspace; cbn [data].
    rewrite Hl.
    replace ((cx <? length l + 1) && (0 <? cx)) with true
      by (symmetry; apply andb_true_iff; split; apply Nat.ltb_lt; lia).
    rewrite vec_remove_spec by lia.
    replace (cx =? 0) with false by (symmetry; apply Nat.eqb_neq; lia).
    replace (S (cx - 1)) with cx by lia.
    rewrite replace_nth_spec by lia. reflexivity.
  - intros -> Hpos.
    destruct cy as [|n]; [lia|]. simpl Nat.sub. rewrite Nat.sub_0_r.
    destruct (nth_error_decompose_prev d n l Hl) as (pre & p & post & -> & Hpre).
    unfold backspace; cbn [data].
    rewrite Hl. cbn [data Nat.ltb Nat.leb Nat.eqb andb Nat.sub].
    rewrite andb_false_r. cbn [data].
    unfold slurp_next_line, get_line; cbn [data].
    rewrite Nat.sub_0_r. replace (n + 1) with (S n) by lia. rewrite Hl.
    rewrite nth_error_app2 by lia. rewrite Hpre, Nat.sub_diag. cbn [nth_error].
    rewrite <- Hpre, replace_nth_app.
    unfold remove_line, count_lines; cbn [data].
    rewrite length_app; cbn [length].
    replace (S (length pre) <? length pre + S (S (length post))) with true
      by (symmetry; apply Nat.ltb_lt; lia).
    replace (pre ++ (p ++ l) :: l :: post) with ((pre ++ [p ++ l]) ++ l :: post)
      by (rewrite <- app_assoc; reflexivity).
    replace (S (length pre)) with (length (pre ++ [p ++ l]))
      by (rewrite length_app; simpl; lia).
    rewrite vec_remove_app, <- app_assoc.
    rewrite firstn_prefix.
    rewrite app_nth2, Nat.sub_diag by lia. cbn [nth app].
    replace (S (length (pre ++ [p ++ l]))) with (length pre + 2)
      by (rewrite length_app; simpl; lia).
    rewrite skipn_prefix. reflexivity.
  - intros -> ->. unfold backspace; cbn [data].
    rewrite Hl, andb_false_r. reflexivity.
Qed.

Definition str (s : string) : list ascii := list_ascii_of_string s.

Lemma backspace_in_row_witness :
  backspace (mkBuffer [str "I'm a typpo."]) (Cursor_new 9 0)
  = Some (mkBuffer [str "I'm a typo."], BufferChanges.Buffer).
Proof.
  apply (proj1 (backspace_in_row (mkBuffer [str "I'm a typpo."]) (Cursor_new 9 0)
                                 (str "I'm a typpo.") eq_refl
                                 ltac:(simpl; lia))).
  simpl; lia.
Defined.

(** ** C3 *)

(** [backspace] panics exactly when [x = 0] and row [y - 1] does not exist:
    [slurp_next_line] indexes [self.data[y - 1]] without a bound check. *)
Lemma backspace_panics_iff (b : Buffer) (c : Cursor) :
  backspace b c = None <-> x c = 0 /\ count_lines b < y c.
Proof.
  destruct b as [d], c as [cx cy]; unfold count_lines; cbn [x y data].
  destruct cx as [|k].
  - assert (Hstep : forall T (k : Buffer * BufferChanges.t -> option T),
              match (match nth_error d cy with
                     | Some l => if (0 <? length l + 1) && (0 <? 0) then
                                   l' <- vec_remove (0 - 1) l ;;
                                   Some (mkBuffer (replace_nth cy l' d), BufferChanges.Buffer)
                                 else Some (mkBuffer d, BufferChanges.None)
                     | None => Some (mkBuffer d, BufferChanges.None)
                     end) with Some r => k r | None => None end
              = k (mkBuffer d, BufferChanges.None)).
    { intros T k. destruct (nth_error d cy); [rewrite andb_false_r|]; reflexivity. }
    unfold backspace; cbn [data]. rewrite Hstep. cbn [Nat.eqb andb].
    destruct cy as [|n]; cbn [Nat.ltb Nat.leb].
    + split; [discriminate | lia].
    + unfold slurp_next_line; cbn [data]. replace (S n - 1) with n by lia.
      destruct (nth_error d n) as [p|] eqn:Hn.
      * assert (n < length d) by (apply nth_error_Some; congruence).
        unfold remove_line, count_lines; cbn [data]. rewrite length_replace_nth.
        destruct (S n <? length d) eqn:Hlt.
        -- rewrite vec_remove_spec by (rewrite length_replace_nth; apply Nat.ltb_lt; exact Hlt).
           split; [discriminate | lia].
        -- split; [discriminate | lia].
      * apply nth_error_None in Hn. split; [lia | reflexivity].
  - unfold backspace; cbn [data].
    destruct (nth_error d cy) as [l|].
    + destruct ((S k <? length l + 1) && (0 <? S k)) eqn:Hc.
      * apply andb_true_iff in Hc as [Hc _]. apply Nat.ltb_lt in Hc.
        rewrite vec_remove_spec by lia. split; [discriminate | lia].
      * split; [discriminate | lia].
    + split; [discriminate | lia].
Qed.

(** C3 (code defect): backspace at [(0, 1)] on the empty buffer panics
    (indexing [self.data[0]] in [slurp_next_line]) instead of resolving to
    a no-op. *)
Theorem backspace_empty_buffer_panics :
  backspace Buffer_new (Cursor_new 0 1) = None.
Proof. reflexivity. Qed.

(** ** C10 *)

(** C10: the Backspace command's new cursor is [(x - 1, y)] when [x > 0],
    [(length of row y - 1 read before the call, y - 1)] when [x = 0 < y],
    and the unchanged cursor at [(0, 0)]. *)
Theorem apply_backspace_cursor (b b' : Buffer) (c c' : Cursor) (chg : BufferChanges.t) :
  apply_command Key.Backspace b c = Some (b', chg, c') ->
  (0 < x c -> c' = Cursor_new (x c - 1) (y c))
  /\ (x c = 0 -> 0 < y c -> c' = Cursor_new (get_line_length b (y c - 1)) (y c - 1))
  /\ (x c = 0 -> y c = 0 -> c' = c).
Proof.
  destruct c as [cx cy]; cbn [x y]. unfold apply_command; cbn [x y].
  destruct (backspace b (Cursor_new cx cy)) as [[b1 r]|]; [|discriminate].
  intros H; injection H as _ _ <-.
  split; [|split]; intros.
  - replace (0 <? cx) with true by (symmetry; apply Nat.ltb_lt; lia). reflexivity.
  - subst cx. replace (0 <? cy) with true by (symmetry; apply Nat.ltb_lt; lia). reflexivity.
  - subst. reflexivity.
Qed.

Definition something_else : Buffer := mkBuffer [str "Something"; str "Else"].

Lemma apply_backspace_cursor_witness :
  Cursor_new 9 0 = Cursor_new (get_line_length something_else 0) 0.
Proof.
  apply (proj1 (proj2 (apply_backspace_cursor something_else
                         (mkBuffer [str "SomethingElse"]) (Cursor_new 0 1)
                         (Cursor_new 9 0) BufferChanges.Buffer
                         ltac:(vm_compute; reflexivity))));
  simpl; lia.
Defined.

(** ** C2 *)

(** C2 (code defect): [newline] at [(5, 0)] on [["ab"]] reports [None] (no
    visual change) but has already inserted an empty row 1. *)
Theorem newline_invalid_split_mutates :
  newline (mkBuffer [str "ab"]) (Cursor_new 5 0)
  = Some (mkBuffer [str "ab"; []], BufferChanges.None).
Proof. reflexivity. Qed.

(** ** C9 *)

Definition directions : list Key.t := [Key.Up; Key.Down; Key.Left; Key.Right].

(** C9: on the empty buffer every arrow key leaves the cursor [(0, 0)] in
    place, and whenever the validity gate fails the cursor is returned
    unchanged. *)
Theorem next_cursor_gate_noop :
  (forall d, In d directions ->
   get_next_cursor (Cursor_new 0 0) Buffer_new d = Some (Cursor_new 0 0))
  /\ (forall (c : Cursor) (b : Buffer) (d : Key.t),
      valid_movement b c d = false -> get_next_cursor c b d = Some c).
Proof.
  split.
  - intros d Hd. repeat (destruct Hd as [<-|Hd]; [reflexivity|]). destruct Hd.
  - intros [cx cy] b d Hv. unfold get_next_cursor. rewrite Hv. reflexivity.
Qed.

Lemma next_cursor_gate_noop_witness :
  get_next_cursor (Cursor_new 3 0) something_else Key.Up = Some (Cursor_new 3 0).
Proof. apply (proj2 next_cursor_gate_noop); reflexivity. Defined.

(** * [str::lines] *)

Lemma strip_suffix_nil (c : ascii) : strip_suffix c [] = None.
Proof. reflexivity. Qed.

Lemma strip_suffix_snoc (c z : ascii) (s : list ascii) :
  strip_suffix c (s ++ [z]) = if ascii_dec z c then Some s else None.
Proof.
  unfold strip_suffix. rewrite rev_app_distr; cbn [rev app].
  rewrite rev_involutive. reflexivity.
Qed.

Lemma strip_suffix_Some (c : ascii) (s q : list ascii) :
  strip_suffix c s = Some q -> s = q ++ [c].
Proof.
  destruct s as [|z s] using rev_ind; [discriminate|].
  rewrite strip_suffix_snoc. destruct (ascii_dec z c); [|discriminate].
  intros H; injection H as ->; subst; reflexivity.
Qed.

Lemma concat_split_inclusive (s : list ascii) : concat (split_inclusive s) = s.
Proof.
  induction s as [|c t IH]; simpl; [reflexivity|].
  destruct (ascii_dec c nl); simpl; [rewrite IH; reflexivity|].
  destruct (split_inclusive t) as [|p ps]; simpl in *; [subst; reflexivity|].
  rewrite IH; reflexivity.
Qed.

Lemma split_inclusive_no_nl (s : list ascii) :
  ~ In nl s -> s <> [] -> split_inclusive s = [s].
Proof.
  induction s as [|c t IH]; intros Hn Hne; [congruence|].
  simpl. destruct (ascii_dec c nl) as [->|Hc]; [exfalso; apply Hn; left; reflexivity|].
  destruct t as [|d t']; [reflexivity|].
  rewrite IH; [reflexivity | intros H; apply Hn; right; exact H | discriminate].
Qed.

(** Every piece of [split_inclusive] holds no ['\n'] but possibly a final one. *)
Lemma split_inclusive_pieces (s p : list ascii) :
  In p (split_inclusive s) ->
  line_ok p \/ exists q, p = q ++ [nl] /\ line_ok q.
Proof.
  revert p; induction s as [|c t IH]; intros p Hp; simpl in Hp; [destruct Hp|].
  destruct (ascii_dec c nl) as [->|Hc].
  - destruct Hp as [<-|Hp]; [right; exists []; split; [reflexivity | intros []]|].
    apply IH; exact Hp.
  - destruct (split_inclusive t) as [|p0 ps] eqn:Hs.
    + destruct Hp as [<-|[]]. left. intros [H|[]]. congruence.
    + destruct Hp as [<-|Hp]; [|apply IH; right; exact Hp].
      destruct (IH p0 (or_introl eq_refl)) as [Hok | (q & -> & Hq)].
      * left. intros [H|H]; [congruence | exact (Hok H)].
      * right. exists (c :: q). split; [reflexivity|].
        intros [H|H]; [congruence | exact (Hq H)].
Qed.

Lemma line_of_piece_no_nl (p : list ascii) : ~ In nl p -> line_of_piece p = p.
Proof.
  intros Hn. unfold line_of_piece.
  destruct (strip_suffix nl p) as [q|] eqn:Hs; [|reflexivity].
  apply strip_suffix_Some in Hs; subst.
  exfalso; apply Hn, in_or_app; right; left; reflexivity.
Qed.

Lemma line_of_piece_ok (p : list ascii) :
  (line_ok p \/ exists q, p = q ++ [nl] /\ line_ok q) -> line_ok (line_of_piece p).
Proof.
  intros [Hok | (q & -> & Hq)].
  - rewrite line_of_piece_no_nl; assumption.
  - unfold line_of_piece. rewrite strip_suffix_snoc.
    destruct (ascii_dec nl nl) as [_|]; [|congruence].
    destruct (strip_suffix cr q) as [q'|] eqn:Hs; [|exact Hq].
    apply strip_suffix_Some in Hs; subst.
    intros H; apply Hq, in_or_app; left; exact H.
Qed.

Lemma lines_ok (s : list ascii) : Forall line_ok (lines s).
Proof.
  unfold lines. apply Forall_forall. intros l Hl.
  apply in_map_iff in Hl as (p & <- & Hp).
  apply line_of_piece_ok, (split_inclusive_pieces s), Hp.
Qed.

(** Prepending a character other than ['\n'] commutes with [line_of_piece],
    unless it forms a ["\r\n"] with the piece. *)
Lemma line_of_piece_cons (c : ascii) (p : list ascii) :
  c <> nl -> ~ (c = cr /\ p = [nl]) ->
  line_of_piece (c :: p) = c :: line_of_piece p.
Proof.
  intros Hc Hcr. unfold line_of_piece.
  destruct p as [|z p] using rev_ind.
  - change [c] with ([] ++ [c]). rewrite strip_suffix_snoc.
    destruct (ascii_dec c nl); [congruence|]. reflexivity.
  - change (c :: p ++ [z]) with ((c :: p) ++ [z]). rewrite !strip_suffix_snoc.
    destruct (ascii_dec z nl) as [->|]; [|reflexivity].
    destruct p as [|w p] using rev_ind.
    + change [c] with ([] ++ [c]). rewrite strip_suffix_snoc, strip_suffix_nil.
      destruct (ascii_dec c cr); [exfalso; apply Hcr; split; auto|]. reflexivity.
    + change (c :: p ++ [w]) with ((c :: p) ++ [w]). rewrite !strip_suffix_snoc.
      destruct (ascii_dec w cr); reflexivity.
Qed.

Lemma crlf_free_cons (c : ascii) (t : list ascii) :
  crlf_free (c :: t) = true ->
  crlf_free t = true /\ (c = cr -> hd_error t <> Some nl).
Proof.
  destruct t as [|d t]; [split; [reflexivity | discriminate]|].
  cbn [crlf_free]. intros H. apply andb_true_iff in H as [H1 H2].
  split; [exact H2|]. intros -> Hd. injection Hd as ->.
  discriminate H1.
Qed.

(** The terminator [serialize] adds beyond [s]: none when [s] is empty or
    already ends in ['\n'], one otherwise. *)
Definition added_terminator (s : list ascii) : list ascii :=
  if ascii_dec (last s nl) nl then [] else [nl].

Lemma added_terminator_cons (c : ascii) (t : list ascii) :
  t <> [] -> added_terminator (c :: t) = added_terminator t.
Proof. destruct t; [congruence | reflexivity]. Qed.

Lemma serialize_pieces (s : list ascii) :
  crlf_free s = true ->
  flat_map (fun p => line_of_piece p ++ [nl]) (split_inclusive s)
  = s ++ added_terminator s.
Proof.
  induction s as [|c t IH]; intros Hs.
  - reflexivity.
  - apply crlf_free_cons in Hs as [Ht Hcr]. specialize (IH Ht).
    cbn [split_inclusive]. destruct (ascii_dec c nl) as [->|Hn].
    + cbn [flat_map]. rewrite IH.
      destruct t as [|d t']; reflexivity.
    + pose proof (concat_split_inclusive t) as Hcat.
      destruct (split_inclusive t) as [|p ps] eqn:Hsplit.
      * cbn in Hcat; subst t. cbn [flat_map].
        rewrite line_of_piece_no_nl by (intros [H|[]]; congruence).
        unfold added_terminator; cbn [last].
        destruct (ascii_dec c nl); [congruence | reflexivity].
      * cbn [flat_map] in IH |- *.
        rewrite line_of_piece_cons.
        -- cbn [app]. rewrite IH, added_terminator_cons; [reflexivity|].
           intros ->. discriminate Hsplit.
        -- exact Hn.
        -- intros [-> ->]. apply Hcr; [reflexivity|]. rewrite <- Hcat. reflexivity.
Qed.

(** ** C1 *)

(** C1 (as stated, fails): loading the empty string gives zero lines, not one
    empty line ([str::lines] yields nothing for [""]). *)
Lemma from_string_empty_zero_lines :
  count_lines (from_string []) = 0 /\ count_lines (from_string []) <> 1.
Proof. split; [reflexivity | discriminate]. Qed.

(** C1 (amended): a string without ['\n'] loads as exactly one line equal to
    it when it is non-empty, and as zero lines when it is empty. *)
Theorem from_string_no_terminator (s : list ascii) :
  ~ In nl s ->
  data (from_string s) = match s with [] => [] | _ :: _ => [s] end.
Proof.
  intros Hn. destruct s as [|c t]; [reflexivity|].
  unfold from_string, lines; cbn [data].
  rewrite split_inclusive_no_nl by (assumption || discriminate).
  cbn [map]. rewrite line_of_piece_no_nl by assumption. reflexivity.
Qed.

Lemma from_string_no_terminator_witness :
  data (from_string (str "hello")) = [str "hello"].
Proof.
  apply (from_string_no_terminator (str "hello")).
  cbn; intuition discriminate.
Defined.

(** ** C5 *)

Lemma serialize_from_string (s : list ascii) :
  serialize (from_string s)
  = flat_map (fun p => line_of_piece p ++ [nl]) (split_inclusive s).
Proof.
  unfold serialize, from_string, lines; cbn [data].
  induction (split_inclusive s) as [|p ps IH]; cbn; [reflexivity | rewrite IH; reflexivity].
Qed.

(** C5 (as stated, fails): [""] serialises back to [""] (zero lines), and
    ["a\r\nb"] to ["a\nb\n"] ([lines] drops the ['\r'] of a ["\r\n"]); neither
    is the input followed by one ['\n']. *)
Lemma serialize_load_counterexample :
  serialize (from_string []) <> [] ++ [nl]
  /\ serialize (from_string (str "a" ++ [cr; nl] ++ str "b"))
     <> (str "a" ++ [cr; nl] ++ str "b") ++ [nl].
Proof. split; vm_compute; discriminate. Qed.

(** C5 (amended): for a string with no ["\r\n"] pair, serialising its load
    gives back the string followed by one ['\n'] when it is non-empty and
    does not end in ['\n'], and the string itself otherwise (in particular
    [""] for [""]). *)
Theorem serialize_load_roundtrip (s : list ascii) :
  crlf_free s = true ->
  serialize (from_string s) = s ++ added_terminator s.
Proof.
  intros H. rewrite serialize_from_string. apply serialize_pieces; exact H.
Qed.

Lemma serialize_load_roundtrip_witness :
  serialize (from_string (str "a" ++ [nl] ++ str "b"))
  = (str "a" ++ [nl] ++ str "b") ++ [nl].
Proof. apply (serialize_load_roundtrip (str "a" ++ [nl] ++ str "b")). reflexivity. Defined.

(** * Newline *)

Lemma vec_insert_app {A : Type} (pre post : list A) (a : A) :
  vec_insert (length pre) a (pre ++ post) = Some (pre ++ a :: post).
Proof. induction pre as [|p pre IH]; simpl; [reflexivity | rewrite IH; reflexivity]. Qed.

Lemma nth_error_prefix {A : Type} (pre post : list A) (a : A) :
  nth_error (pre ++ a :: post) (length pre) = Some a.
Proof. rewrite nth_error_app2, Nat.sub_diag by lia; reflexivity. Qed.

(** [newline] in closed form around row [y] after fill-to: a valid split
    cuts the row in two and reports [Buffer]; an invalid one leaves an empty
    row inserted after row [y] and reports [None]. *)
Lemma newline_spec (b : Buffer) (c : Cursor) :
  let R := filled_row b (y c) in
  exists pre post,
    data (fill_lines b (y c)) = pre ++ R :: post /\ length pre = y c /\
    newline b c =
    if x c <=? length R
    then Some (mkBuffer (pre ++ firstn (x c) R :: skipn (x c) R :: post),
               BufferChanges.Buffer)
    else Some (mkBuffer (pre ++ R :: [] :: post), BufferChanges.None).
Proof.
  destruct c as [cx cy]; cbn [x y]. cbv zeta.
  pose proof (nth_error_filled_row b cy) as H.
  remember (filled_row b cy) as R eqn:HR; clear HR.
  apply nth_error_split in H as (pre & post & HD & Hlen).
  exists pre, post. split; [exact HD|]. split; [exact Hlen|].
  unfold newline, insert_line; cbn [data]. rewrite HD. subst cy.
  replace (pre ++ R :: post) with ((pre ++ [R]) ++ post)
    by (rewrite <- app_assoc; reflexivity).
  replace (length pre + 1) with (length (pre ++ [R]))
    by (rewrite length_app; reflexivity).
  rewrite vec_insert_app. rewrite <- app_assoc; cbn [app].
  unfold get_line_data_from_offset; cbn [data]. rewrite nth_error_prefix.
  destruct (cx <=? length R) eqn:Hx; [|reflexivity].
  unfold truncate_line; cbn [data]. rewrite nth_error_prefix.
  rewrite replace_nth_app. cbn [data].
  replace (pre ++ firstn cx R :: [] :: post)
    with ((pre ++ [firstn cx R]) ++ [] :: post)
    by (rewrite <- app_assoc; reflexivity).
  replace (length (pre ++ [R])) with (length (pre ++ [firstn cx R]))
    by (rewrite !length_app; reflexivity).
  rewrite nth_error_prefix, replace_nth_app, <- app_assoc. reflexivity.
Qed.

(** ** C6 *)

Lemma vec_remove_In {A : Type} (i : nat) (v v' : list A) (a : A) :
  vec_remove i v = Some v' -> In a v' -> In a v.
Proof.
  revert i v'; induction v as [|h t IH]; intros [|i] v' H; simpl in H;
    try discriminate.
  - injection H as <-. intros Hin; right; exact Hin.
  - destruct (vec_remove i t) as [t'|] eqn:Ht; [|discriminate].
    injection H as <-. intros [<-|Hin]; [left; reflexivity | right; exact (IH _ _ Ht Hin)].
Qed.

Lemma count_fill_lines (b : Buffer) (n : nat) :
  count_lines (fill_lines b n) = Nat.max (S n) (count_lines b).
Proof. apply fill_lines_length. Qed.

(** The structure of a successful [backspace]: a first step that keeps the
    line count, then, for [x = 0 < y], the merge. *)
Lemma backspace_shape (b b' : Buffer) (c : Cursor) (r : BufferChanges.t) :
  backspace b c = Some (b', r) ->
  exists b1 r1,
    count_lines b1 = count_lines b /\ (buffer_ok b -> buffer_ok b1) /\
    ((x c =? 0) && (0 <? y c) = false -> b' = b1 /\ r = r1) /\
    ((x c =? 0) && (0 <? y c) = true ->
     r = BufferChanges.Buffer /\
     exists b2, slurp_next_line b1 (y c - 1) = Some b2 /\ remove_line b2 (y c) = Some b').
Proof.
  destruct b as [d], c as [cx cy]; cbn [x y]. unfold backspace; cbn [data].
  assert (Hfin : forall (b1 : Buffer) (r1 : BufferChanges.t),
    (if (cx =? 0) && (0 <? cy) then
       b2 <- slurp_next_line b1 (cy - 1) ;; b3 <- remove_line b2 cy ;;
       Some (b3, BufferChanges.Buffer)
     else Some (b1, r1)) = Some (b', r) ->
    ((cx =? 0) && (0 <? cy) = false -> b' = b1 /\ r = r1) /\
    ((cx =? 0) && (0 <? cy) = true ->
     r = BufferChanges.Buffer /\
     exists b2, slurp_next_line b1 (cy - 1) = Some b2 /\ remove_line b2 cy = Some b')).
  { intros b1 r1 H. split; intros Hb; rewrite Hb in H.
    - injection H as <- <-; split; reflexivity.
    - destruct (slurp_next_line b1 (cy - 1)) as [b2|] eqn:Hs; [|discriminate].
      destruct (remove_line b2 cy) as [b3|] eqn:Hrm; [|discriminate].
      injection H as <- <-. split; [reflexivity | exists b2; split; [reflexivity | exact Hrm]]. }
  destruct (nth_error d cy) as [l|] eqn:Hl.
  - destruct ((cx <? length l + 1) && (0 <? cx)) eqn:Hc.
    + destruct (vec_remove (cx - 1) l) as [l'|] eqn:Hr; [|discriminate].
      intros H. exists (mkBuffer (replace_nth cy l' d)), BufferChanges.Buffer.
      split; [apply length_replace_nth|]. split; [|exact (Hfin _ _ H)].
      unfold buffer_ok; cbn [data]. intros Hok.
      apply Forall_replace_nth; [exact Hok|].
      intros Hin. apply (vec_remove_In _ _ _ _ Hr) in Hin.
      rewrite Forall_forall in Hok. exact (Hok l (nth_error_In _ _ Hl) Hin).
    + intros H. exists (mkBuffer d), BufferChanges.None.
      split; [reflexivity|]. split; [auto | exact (Hfin _ _ H)].
  - intros H. exists (mkBuffer d), BufferChanges.None.
    split; [reflexivity|]. split; [auto | exact (Hfin _ _ H)].
Qed.

(** C6 (as stated, fails): inserting into the empty buffer grows it from
    zero lines to one, yet [write_char] reports [Lines [0]], not [Buffer]. *)
Lemma write_char_grows_without_whole :
  count_lines Buffer_new = 0
  /\ write_char Buffer_new (Cursor_new 0 0) "a"%char
     = Some (mkBuffer [["a"%char]], BufferChanges.Lines [0]).
Proof. split; reflexivity. Qed.

(** C6 (amended): [write_char] always reports [Lines [y]], also when
    fill-to grows the line count; [backspace] reports [Buffer] whenever it
    changes the line count; [newline] at a valid split point (column at most
    the length of row [y] after fill-to) adds one line and reports
    [Buffer]. *)
Theorem changes_report_structure :
  (forall b c ch b' r, write_char b c ch = Some (b', r) ->
     r = BufferChanges.Lines [y c]
     /\ count_lines b' = Nat.max (S (y c)) (count_lines b))
  /\ (forall b c b' r, backspace b c = Some (b', r) ->
        count_lines b' <> count_lines b -> r = BufferChanges.Buffer)
  /\ (forall b c, x c <= length (filled_row b (y c)) ->
        exists b', newline b c = Some (b', BufferChanges.Buffer)
                   /\ count_lines b' = S (count_lines (fill_lines b (y c)))).
Proof.
  split; [|split].
  - intros b c ch b' r H. rewrite write_char_spec in H. injection H as <- <-.
    split; [reflexivity|]. unfold count_lines; cbn [data].
    rewrite length_replace_nth. apply fill_lines_length.
  - intros b c b' r H Hne.
    destruct (backspace_shape b b' c r H) as (b1 & r1 & Hc & _ & Hf & Ht).
    destruct ((x c =? 0) && (0 <? y c)) eqn:Hb.
    + apply Ht; reflexivity.
    + destruct (Hf eq_refl) as [-> _]. congruence.
  - intros b c Hx.
    destruct (newline_spec b c) as (pre & post & HD & _ & Hn).
    apply Nat.leb_le in Hx. rewrite Hx in Hn.
    eexists; split; [exact Hn|].
    unfold count_lines; rewrite HD; cbn [data].
    rewrite !length_app; cbn [length]. lia.
Qed.

Lemma changes_report_structure_witness :
  exists b', newline (mkBuffer [str "Hello world."]) (Cursor_new 5 0)
             = Some (b', BufferChanges.Buffer)
           /\ count_lines b' = 2.
Proof.
  apply (proj2 (proj2 changes_report_structure)
           (mkBuffer [str "Hello world."]) (Cursor_new 5 0)).
  vm_compute; lia.
Defined.

(** ** C4 *)

Lemma line_ok_firstn (n : nat) (l : list ascii) : line_ok l -> line_ok (firstn n l).
Proof.
  intros H Hin; apply H. rewrite <- (firstn_skipn n l). apply in_or_app; left; exact Hin.
Qed.

Lemma line_ok_skipn (n : nat) (l : list ascii) : line_ok l -> line_ok (skipn n l).
Proof.
  intros H Hin; apply H. rewrite <- (firstn_skipn n l). apply in_or_app; right; exact Hin.
Qed.

Lemma line_ok_app (l1 l2 : list ascii) : line_ok l1 -> line_ok l2 -> line_ok (l1 ++ l2).
Proof. intros H1 H2 Hin; apply in_app_or in Hin as [Hin|Hin]; auto. Qed.

Lemma get_line_ok (b : Buffer) (n : nat) : buffer_ok b -> line_ok (get_line b n).
Proof.
  unfold get_line, buffer_ok; intros Hok.
  destruct (nth_error (data b) n) as [l|] eqn:Hl; [|intros []].
  rewrite Forall_forall in Hok; exact (Hok l (nth_error_In _ _ Hl)).
Qed.

Lemma slurp_next_line_ok (b b' : Buffer) (n : nat) :
  buffer_ok b -> slurp_next_line b n = Some b' -> buffer_ok b'.
Proof.
  unfold slurp_next_line; intros Hok H.
  destruct (nth_error (data b) n) as [l|] eqn:Hl; [|discriminate].
  injection H as <-. unfold buffer_ok; cbn [data].
  apply Forall_replace_nth; [exact Hok|].
  apply line_ok_app; [|apply get_line_ok; exact Hok].
  unfold buffer_ok in Hok; rewrite Forall_forall in Hok.
  exact (Hok l (nth_error_In _ _ Hl)).
Qed.

Lemma remove_line_ok (b b' : Buffer) (n : nat) :
  buffer_ok b -> remove_line b n = Some b' -> buffer_ok b'.
Proof.
  unfold remove_line; intros Hok H.
  destruct (n <? count_lines b); [|injection H as <-; exact Hok].
  destruct (vec_remove n (data b)) as [d|] eqn:Hr; [|discriminate].
  injection H as <-. unfold buffer_ok in *; cbn [data].
  rewrite Forall_forall in *. intros l Hl. exact (Hok l (vec_remove_In _ _ _ _ Hr Hl)).
Qed.

(** C4 (as stated, fails): [write_char] inserts any character, ['\n']
    included, so inserting ['\n'] puts a terminator inside a line. *)
Lemma write_char_newline_embeds_terminator :
  write_char Buffer_new (Cursor_new 0 0) nl
  = Some (mkBuffer [[nl]], BufferChanges.Lines [0])
  /\ ~ buffer_ok (mkBuffer [[nl]]).
Proof.
  split; [reflexivity|].
  unfold buffer_ok; cbn [data]. intros H. inversion H as [|l ls Hl _]; subst.
  apply Hl; left; reflexivity.
Qed.

(** C4 (amended): no line holds ['\n'] after [from_string], and
    [newline], [backspace] and [write_char] of any character other than
    ['\n'] keep it so. *)
Theorem no_terminator_in_lines :
  (forall s, buffer_ok (from_string s))
  /\ (forall b c ch b' r, ch <> nl -> buffer_ok b ->
        write_char b c ch = Some (b', r) -> buffer_ok b')
  /\ (forall b c b' r, buffer_ok b -> newline b c = Some (b', r) -> buffer_ok b')
  /\ (forall b c b' r, buffer_ok b -> backspace b c = Some (b', r) -> buffer_ok b').
Proof.
  split; [|split; [|split]].
  - intros s. unfold buffer_ok, from_string; cbn [data]. rewrite map_id. apply lines_ok.
  - intros b c ch b' r Hch Hok H.
    rewrite write_char_spec in H. injection H as <- _.
    pose proof (fill_lines_ok b (y c) Hok) as Hf.
    assert (Hrow : line_ok (filled_row b (y c))).
    { unfold buffer_ok in Hf; rewrite Forall_forall in Hf.
      exact (Hf _ (nth_error_In _ _ (nth_error_filled_row b (y c)))). }
    assert (Hpad : line_ok (filled_row b (y c)
                            ++ repeat space (x c - length (filled_row b (y c))))).
    { apply line_ok_app; [exact Hrow|]. intros Hin.
      apply repeat_spec in Hin. discriminate Hin. }
    unfold buffer_ok; cbn [data]. apply Forall_replace_nth; [exact Hf|].
    apply line_ok_app; [apply line_ok_firstn; exact Hpad|].
    intros [Heq|Hin]; [congruence|]. exact (line_ok_skipn _ _ Hpad Hin).
  - intros b c b' r Hok H.
    destruct (newline_spec b c) as (pre & post & HD & _ & Hn).
    pose proof (fill_lines_ok b (y c) Hok) as Hf.
    unfold buffer_ok in Hf; rewrite HD in Hf.
    apply Forall_app in Hf as [Hpre Hrest]. inversion Hrest as [|R' post' HR Hpost]; subst.
    rewrite Hn in H. unfold buffer_ok.
    destruct (x c <=? length (filled_row b (y c))); injection H as <- _; cbn [data];
      apply Forall_app; split; auto.
    + constructor; [apply line_ok_firstn; exact HR|].
      constructor; [apply line_ok_skipn; exact HR | exact Hpost].
    + constructor; [exact HR|]. constructor; [intros [] | exact Hpost].
  - intros b c b' r Hok H.
    destruct (backspace_shape b b' c r H) as (b1 & r1 & _ & Hok1 & Hf & Ht).
    specialize (Hok1 Hok).
    destruct ((x c =? 0) && (0 <? y c)) eqn:Hb.
    + destruct (Ht eq_refl) as (_ & b2 & Hs & Hr).
      exact (remove_line_ok _ _ _ (slurp_next_line_ok _ _ _ Hok1 Hs) Hr).
    + destruct (Hf eq_refl) as [-> _]. exact Hok1.
Qed.

Lemma no_terminator_in_lines_witness :
  buffer_ok (mkBuffer [str "Hello"; str " world."]).
Proof.
  apply (proj1 (proj2 (proj2 no_terminator_in_lines))
           (mkBuffer [str "Hello world."]) (Cursor_new 5 0)
           (mkBuffer [str "Hello"; str " world."]) BufferChanges.Buffer).
  - unfold buffer_ok, line_ok; cbn [data].
    apply Forall_cons; [|apply Forall_nil]. cbn; intuition discriminate.
  - vm_compute; reflexivity.
Defined.

(** * Further properties of the code *)

(** ** Navigation *)

Ltac nat_cases :=
  repeat match goal with
  | |- context [?a <? ?b] => destruct (Nat.ltb_spec a b)
  | |- context [?a =? ?b] => destruct (Nat.eqb_spec a b)
  | |- context [?a <=? ?b] => destruct (Nat.leb_spec a b)
  end; cbn [andb orb negb].


(** [get_next_cursor] never reaches its [unreachable!()] arm, and returns
    the cursor unchanged for every key that is not an arrow. *)
Theorem get_next_cursor_never_unreachable (c : Cursor) (b : Buffer) (d : Key.t) :
  get_next_cursor c b d <> None
  /\ (~ In d directions -> get_next_cursor c b d = Some c).
Proof.
  destruct c as [cx cy].
  destruct d; unfold get_next_cursor, valid_movement; cbn [x y];
    split; try (intros H; exfalso; apply H; cbn; tauto);
    try (intros _; reflexivity); try discriminate;
    nat_cases; discriminate.
Qed.

Lemma get_next_cursor_never_unreachable_witness :
  ~ In Key.Enter directions /\
  get_next_cursor (Cursor_new 3 1) something_else Key.Enter = Some (Cursor_new 3 1).
Proof.
  assert (H : ~ In Key.Enter directions) by (cbn; intuition discriminate).
  split; [exact H | exact (proj2 (get_next_cursor_never_unreachable _ _ _) H)].
Defined.

(** [Up] from any row but the first moves one row up and clamps the column
    to the length of that row. *)
Theorem get_next_cursor_up (c : Cursor) (b : Buffer) :
  0 < y c ->
  get_next_cursor c b Key.Up
  = Some (Cursor_new (Nat.min (x c) (get_line_length b (y c - 1))) (y c - 1)).
Proof.
  destruct c as [cx cy]; cbn [x y]; intros H.
  unfold get_next_cursor, valid_movement. nat_cases; try lia;
    f_equal; f_equal; lia.
Qed.

Lemma get_next_cursor_up_witness :
  0 < 1 /\
  get_next_cursor (Cursor_new 7 1) something_else Key.Up = Some (Cursor_new 7 0).
Proof. split; [lia | apply (get_next_cursor_up (Cursor_new 7 1)); cbn; lia]. Defined.

(** [Down] from any row that has a row below it moves one row down and clamps
    the column to the length of that row. *)
Theorem get_next_cursor_down (c : Cursor) (b : Buffer) :
  y c + 1 < count_lines b ->
  get_next_cursor c b Key.Down
  = Some (Cursor_new (Nat.min (x c) (get_line_length b (y c + 1))) (y c + 1)).
Proof.
  destruct c as [cx cy]; cbn [x y]; intros H.
  unfold get_next_cursor, valid_movement. nat_cases; try lia;
    f_equal; f_equal; lia.
Qed.

Lemma get_next_cursor_down_witness :
  0 + 1 < count_lines something_else /\
  get_next_cursor (Cursor_new 7 0) something_else Key.Down = Some (Cursor_new 4 1).
Proof. split; [cbn; lia | apply (get_next_cursor_down (Cursor_new 7 0)); cbn; lia]. Defined.

(** From any cursor on an existing row, [Right] followed by [Left] comes back
    to the starting cursor (also across the end of a row). *)
Theorem get_next_cursor_right_left (c : Cursor) (b : Buffer) :
  y c < count_lines b ->
  (c1 <- get_next_cursor c b Key.Right ;; get_next_cursor c1 b Key.Left) = Some c.
Proof.
  destruct c as [cx cy]; cbn [x y]; intros H.
  unfold get_next_cursor at 1, valid_movement at 1.
  destruct (Nat.ltb_spec cy (count_lines b)); [|lia]. rewrite orb_true_r. cbn [negb].
  destruct ((cy + 1 <? count_lines b) && (cx =? get_line_length b cy)) eqn:E.
  - apply andb_prop in E as [_ E]. apply Nat.eqb_eq in E. subst cx.
    unfold get_next_cursor, valid_movement. nat_cases; try lia.
    replace (cy + 1 - 1) with cy by lia. reflexivity.
  - unfold get_next_cursor, valid_movement. nat_cases; try lia;
      f_equal; f_equal; lia.
Qed.

Lemma get_next_cursor_right_left_witness :
  1 < count_lines something_else /\
  (c1 <- get_next_cursor (Cursor_new 4 1) something_else Key.Right ;;
   get_next_cursor c1 something_else Key.Left) = Some (Cursor_new 4 1).
Proof. split; [cbn; lia | apply (get_next_cursor_right_left (Cursor_new 4 1)); cbn; lia]. Defined.

(** From any cursor on an existing row, within the row, and not at the origin,
    [Left] followed by [Right] comes back to the starting cursor (also across
    the beginning of a row). *)
Theorem get_next_cursor_left_right (c : Cursor) (b : Buffer) :
  cursor_valid b c -> (x c <> 0 \/ y c <> 0) ->
  (c1 <- get_next_cursor c b Key.Left ;; get_next_cursor c1 b Key.Right) = Some c.
Proof.
  destruct c as [cx cy]; unfold cursor_valid; cbn [x y]; intros [Hy Hx] H0.
  unfold get_next_cursor at 1, valid_movement at 1.
  destruct ((0 <? cx) || (0 <? cy)) eqn:V.
  2:{ apply orb_false_iff in V as [V1 V2].
      apply Nat.ltb_ge in V1, V2. lia. }
  cbn [negb].
  destruct ((0 <? cy) && (cx =? 0)) eqn:E.
  - apply andb_prop in E as [E1 E2]. apply Nat.ltb_lt in E1. apply Nat.eqb_eq in E2.
    subst cx. unfold get_next_cursor, valid_movement. nat_cases; try lia.
    replace (cy - 1 + 1) with cy by lia. reflexivity.
  - assert (0 < cx).
    { destruct (Nat.eq_dec cx 0); [|lia]. subst cx.
      destruct (Nat.ltb_spec 0 cy); cbn in E; [discriminate|lia]. }
    unfold get_next_cursor, valid_movement. nat_cases; try lia;
    f_equal; f_equal; lia.
Qed.

Lemma get_next_cursor_left_right_witness :
  cursor_valid something_else (Cursor_new 0 1) /\ (0 <> 0 \/ 1 <> 0) /\
  (c1 <- get_next_cursor (Cursor_new 0 1) something_else Key.Left ;;
   get_next_cursor c1 something_else Key.Right) = Some (Cursor_new 0 1).
Proof.
  assert (H : cursor_valid something_else (Cursor_new 0 1))
    by (unfold cursor_valid; cbn; lia).
  split; [exact H|]. split; [right; lia|].
  apply (get_next_cursor_left_right (Cursor_new 0 1) something_else H). cbn; lia.
Defined.

(** On the last row of the buffer, [Right] always moves one column right,
    also past the end of the row: the column is not bounded there. *)
Theorem get_next_cursor_right_last_row (c : Cursor) (b : Buffer) :
  y c + 1 = count_lines b ->
  get_next_cursor c b Key.Right = Some (Cursor_new (x c + 1) (y c)).
Proof.
  destruct c as [cx cy]; cbn [x y]; intros H.
  unfold get_next_cursor, valid_movement. nat_cases; try lia; reflexivity.
Qed.

Lemma get_next_cursor_right_last_row_witness :
  1 + 1 = count_lines something_else /\
  get_next_cursor (Cursor_new 9 1) something_else Key.Right = Some (Cursor_new 10 1).
Proof. split; [reflexivity | apply (get_next_cursor_right_last_row (Cursor_new 9 1)); reflexivity]. Defined.

(** From a cursor on an existing row, every key keeps the cursor on an
    existing row; [Up], [Down] and [Left] also keep a valid cursor valid
    (its column at most the row's length). *)
Theorem get_next_cursor_stays_in_buffer (c c' : Cursor) (b : Buffer) (d : Key.t) :
  y c < count_lines b ->
  get_next_cursor c b d = Some c' ->
  y c' < count_lines b
  /\ (d <> Key.Right -> x c <= get_line_length b (y c) -> cursor_valid b c').
Proof.
  destruct c as [cx cy]; unfold cursor_valid; cbn [x y]; intros Hy.
  destruct d; unfold get_next_cursor, valid_movement;
    nat_cases; intros Hc; injection Hc as <-; cbn [x y];
    (split; [lia | intros Hd Hx; try (exfalso; apply Hd; reflexivity); split; lia]).
Qed.

Lemma get_next_cursor_stays_in_buffer_witness :
  0 < count_lines something_else /\
  get_next_cursor (Cursor_new 9 0) something_else Key.Down = Some (Cursor_new 4 1) /\
  1 < count_lines something_else.
Proof.
  assert (H : get_next_cursor (Cursor_new 9 0) something_else Key.Down = Some (Cursor_new 4 1))
    by reflexivity.
  split; [cbn; lia|]. split; [exact H|].
  exact (proj1 (get_next_cursor_stays_in_buffer (Cursor_new 9 0) _ something_else Key.Down
                  ltac:(cbn; lia) H)).
Defined.

(** ** Editing *)

Lemma fill_lines_noop (b : Buffer) (n : nat) :
  n < count_lines b -> fill_lines b n = b.
Proof.
  destruct b as [d]; unfold count_lines, fill_lines; cbn [data]; intros H.
  rewrite fill_loop_spec by lia. replace (S n - length d) with 0 by lia.
  cbn [repeat]. rewrite app_nil_r. reflexivity.
Qed.

Lemma cursor_valid_split (b : Buffer) (c : Cursor) :
  cursor_valid b c ->
  exists pre l post, data b = pre ++ l :: post /\ length pre = y c /\ x c <= length l.
Proof.
  destruct b as [d], c as [cx cy]; unfold cursor_valid, count_lines, get_line_length;
    cbn [data x y]; intros [Hy Hx].
  destruct (nth_error d cy) as [l|] eqn:Hl.
  2:{ apply nth_error_None in Hl; lia. }
  apply nth_error_split in Hl as (pre & post & -> & Hlen).
  exists pre, l, post. split; [reflexivity|]. split; [exact Hlen|].
  destruct (Nat.leb_spec (length (pre ++ l :: post)) cy); lia.
Qed.

Lemma get_line_length_prefix (pre post : list line) (l : line) :
  get_line_length (mkBuffer (pre ++ l :: post)) (length pre) = length l.
Proof.
  unfold get_line_length; cbn [data]. rewrite nth_error_prefix, length_app; cbn [length].
  destruct (Nat.leb_spec (length pre + S (length post)) (length pre)); [lia | reflexivity].
Qed.

Lemma vec_remove_at {A : Type} (i : nat) (pre post : list A) (a : A) :
  i = length pre -> vec_remove i (pre ++ a :: post) = Some (pre ++ post).
Proof. intros ->; apply vec_remove_app. Qed.

(** Typing a character at a valid cursor and then pressing Backspace gives
    back the buffer and the cursor, with the change [Buffer]. *)
Theorem apply_char_then_backspace (b : Buffer) (c : Cursor) (ch : ascii) :
  cursor_valid b c ->
  (r <- apply_command (Key.Char ch) b c ;;
   let '(b1, _, c1) := r in apply_command Key.Backspace b1 c1)
  = Some (b, BufferChanges.Buffer, c).
Proof.
  intros Hv. pose proof (proj1 Hv) as Hy.
  apply cursor_valid_split in Hv as (pre & l & post & Hd & Hlen & Hx).
  destruct b as [d]; cbn [data] in Hd; subst d.
  destruct c as [cx cy]; cbn [x y] in *; subst cy.
  unfold apply_command at 1. rewrite write_char_spec. cbv zeta. cbn [x y].
  unfold filled_row. rewrite fill_lines_noop by exact Hy. cbn [data].
  rewrite nth_middle. replace (cx - length l) with 0 by lia. cbn [repeat]. rewrite app_nil_r.
  rewrite replace_nth_app. cbn [fst snd].
  unfold apply_command, backspace; cbn [x y data].
  rewrite nth_error_prefix. rewrite length_app; cbn [length].
  rewrite length_firstn, length_skipn.
  destruct (Nat.ltb_spec (cx + 1) (Nat.min cx (length l) + S (length l - cx) + 1)); [|lia].
  destruct (Nat.ltb_spec 0 (cx + 1)); [|lia]. cbn [andb].
  replace (cx + 1 - 1) with cx by lia.
  rewrite (vec_remove_at cx (firstn cx l)) by (rewrite length_firstn; lia).
  rewrite firstn_skipn, replace_nth_app.
  destruct (Nat.eqb_spec (cx + 1) 0); [lia|]. cbn [andb].
  replace (cx + 1 - 1) with cx by lia. reflexivity.
Qed.

Lemma nth_error_prefix_next {A : Type} (pre post : list A) (a b : A) :
  nth_error (pre ++ a :: b :: post) (length pre + 1) = Some b.
Proof. rewrite nth_error_app2 by lia. replace (length pre + 1 - length pre) with 1 by lia. reflexivity. Qed.

(** Pressing Enter at a valid cursor and then Backspace joins the two halves
    again: the buffer and the cursor are restored, with the change [Buffer]. *)
Theorem apply_enter_then_backspace (b : Buffer) (c : Cursor) :
  cursor_valid b c ->
  (r <- apply_command Key.Enter b c ;;
   let '(b1, _, c1) := r in apply_command Key.Backspace b1 c1)
  = Some (b, BufferChanges.Buffer, c).
Proof.
  intros [Hy Hx].
  destruct (newline_spec b c) as (pre & post & Hd & Hlen & Hn).
  rewrite fill_lines_noop in Hd by exact Hy.
  remember (filled_row b (y c)) as R eqn:HR; clear HR.
  destruct b as [d]; cbn [data] in Hd; subst d.
  destruct c as [cx cy]; cbn [x y] in *; subst cy.
  rewrite get_line_length_prefix in Hx.
  unfold apply_command at 1. rewrite Hn.
  destruct (Nat.leb_spec cx (length R)); [|lia]. cbn [fst snd x y].
  unfold apply_command. cbn [x y].
  destruct (Nat.ltb_spec 0 (length pre + 1)); [|lia].
  destruct (Nat.ltb_spec 0 0); [lia|].
  replace (length pre + 1 - 1) with (length pre) by lia.
  rewrite get_line_length_prefix, length_firstn.
  unfold backspace. cbn [data]. rewrite nth_error_prefix_next.
  rewrite andb_false_r. cbn [Nat.eqb andb].
  replace (length pre + 1 - 1) with (length pre) by lia.
  unfold slurp_next_line, get_line; cbn [data].
  rewrite nth_error_prefix_next, nth_error_prefix, replace_nth_app.
  unfold remove_line, count_lines; cbn [data].
  rewrite length_app; cbn [length].
  destruct (Nat.ltb_spec (length pre + 1) (length pre + S (S (length post)))); [|lia].
  replace (pre ++ (firstn cx R ++ skipn cx R) :: skipn cx R :: post)
    with ((pre ++ [firstn cx R ++ skipn cx R]) ++ skipn cx R :: post)
    by (rewrite <- app_assoc; reflexivity).
  replace (length pre + 1) with (length (pre ++ [firstn cx R ++ skipn cx R]))
    by (rewrite length_app; reflexivity).
  rewrite vec_remove_app, <- app_assoc, firstn_skipn. cbn [app].
  destruct (Nat.ltb_spec 0 (length (pre ++ [R]))); [|rewrite length_app in *; cbn in *; lia].
  cbn [fst snd]. do 3 f_equal. lia.
Qed.

(** [apply_command] panics for exactly one kind of input: Backspace at column
    [0] on a row beyond the row after the last line. Typing and Enter never
    panic, wherever the cursor is. *)
Theorem apply_command_panics_iff (k : Key.t) (b : Buffer) (c : Cursor) :
  apply_command k b c = None
  <-> k = Key.Backspace /\ x c = 0 /\ count_lines b < y c.
Proof.
  destruct k; cbn [apply_command];
    try (split; [discriminate | intros (H & _); discriminate H]).
  - rewrite write_char_spec. split; [discriminate | intros (H & _); discriminate H].
  - destruct (newline_spec b c) as (pre & post & _ & _ & ->).
    destruct (x c <=? length (filled_row b (y c)));
      (split; [discriminate | intros (H & _); discriminate H]).
  - rewrite <- backspace_panics_iff.
    destruct (backspace b c); cbn.
    + split; [discriminate | intros (_ & H); discriminate H].
    + tauto.
Qed.

(** Typing a character at row [y] leaves [max (y + 1) n] lines, where [n] is
    the line count before; Enter leaves one more than that, also when the
    split fails. *)
Theorem insert_newline_line_count (b : Buffer) (c : Cursor) (ch : ascii) :
  option_map (fun r => count_lines (fst r)) (write_char b c ch)
  = Some (Nat.max (S (y c)) (count_lines b))
  /\ option_map (fun r => count_lines (fst r)) (newline b c)
  = Some (Nat.max (S (y c)) (count_lines b) + 1).
Proof.
  split.
  - rewrite write_char_spec. cbn [option_map fst]. unfold count_lines; cbn [data].
    rewrite length_replace_nth, fill_lines_length. reflexivity.
  - destruct (newline_spec b c) as (pre & post & Hd & _ & ->).
    rewrite <- count_fill_lines. unfold count_lines. rewrite Hd.
    destruct (x c <=? length (filled_row b (y c))); cbn [option_map fst data];
      rewrite !length_app; cbn [length]; f_equal; lia.
Qed.

Lemma backspace_changes (b b' : Buffer) (c : Cursor) (r : BufferChanges.t) :
  backspace b c = Some (b', r) -> r = BufferChanges.Buffer \/ r = BufferChanges.None.
Proof.
  destruct c as [cx cy]; unfold backspace.
  destruct (nth_error (data b) cy) as [l|];
    [destruct ((cx <? length l + 1) && (0 <? cx));
     [destruct (vec_remove (cx - 1) l)|]|];
    cbn [andb]; try discriminate;
    (destruct ((cx =? 0) && (0 <? cy));
     [ destruct (slurp_next_line _ _); [|discriminate];
       destruct (remove_line _ _); [|discriminate]
     | ]);
    intros H; injection H as _ <-; auto.
Qed.

(** [apply_command] never reports [BufferChanges::Char], so the
    [unimplemented!()] arm of [render_buffer_changes] is not reached by it. *)
Theorem apply_command_never_char_change (k : Key.t) (b b' : Buffer) (c c' : Cursor)
    (chg : BufferChanges.t) :
  apply_command k b c = Some (b', chg, c') -> forall p, chg <> BufferChanges.Char p.
Proof.
  intros H p ->. destruct k; cbn [apply_command] in H; try discriminate H.
  - rewrite write_char_spec in H. discriminate H.
  - destruct (newline_spec b c) as (pre & post & _ & _ & Hn). rewrite Hn in H.
    destruct (x c <=? length (filled_row b (y c))); discriminate H.
  - destruct (backspace b c) as [[b1 r]|] eqn:Hb; [|discriminate H].
    injection H as _ Hr _. cbn [snd] in Hr. subst r.
    apply backspace_changes in Hb as [H|H]; discriminate H.
Qed.

(** Backspace with the cursor past the end of an existing row changes nothing
    in the buffer and reports [None], but still moves the cursor one column
    left. *)
Theorem backspace_past_end_of_row (b : Buffer) (c : Cursor) (l : line) :
  nth_error (data b) (y c) = Some l -> length l < x c ->
  apply_command Key.Backspace b c
  = Some (b, BufferChanges.None, Cursor_new (x c - 1) (y c)).
Proof.
  destruct c as [cx cy]; cbn [x y]; intros Hl Hx.
  unfold apply_command, backspace; cbn [x y]. rewrite Hl.
  destruct (Nat.ltb_spec cx (length l + 1)); [lia|]. cbn [andb].
  destruct (Nat.eqb_spec cx 0); [lia|].
  destruct (Nat.ltb_spec 0 cx); [|lia]. cbn [andb fst snd].
  destruct b; reflexivity.
Qed.

Lemma length_vec_remove {A : Type} (i : nat) (v v' : list A) :
  vec_remove i v = Some v' -> length v' = length v - 1.
Proof.
  revert i v'; induction v as [|h t IH]; intros [|i] v' H; cbn in H; try discriminate.
  - injection H as <-. cbn; lia.
  - destruct (vec_remove i t) as [t'|] eqn:Ht; [|discriminate].
    injection H as <-. cbn [length]. rewrite (IH _ _ Ht).
    destruct t; [destruct i; discriminate Ht | cbn; lia].
Qed.

Lemma backspace_count_lines (b b' : Buffer) (c : Cursor) (r : BufferChanges.t) :
  backspace b c = Some (b', r) ->
  count_lines b' =
  if (x c =? 0) && (0 <? y c) && (y c <? count_lines b)
  then count_lines b - 1 else count_lines b.
Proof.
  intros H. apply backspace_shape in H as (b1 & r1 & Hc & _ & Hf & Ht).
  destruct ((x c =? 0) && (0 <? y c)) eqn:E; cbn [andb].
  - destruct (Ht eq_refl) as (_ & b2 & Hs & Hr).
    assert (Hc2 : count_lines b2 = count_lines b1).
    { unfold slurp_next_line in Hs.
      destruct (nth_error (data b1) (y c - 1)); [|discriminate].
      injection Hs as <-. apply length_replace_nth. }
    unfold remove_line in Hr. rewrite Hc2, Hc in Hr.
    destruct (y c <? count_lines b).
    + destruct (vec_remove (y c) (data b2)) as [d|] eqn:Hv; [|discriminate].
      injection Hr as <-. unfold count_lines at 1; cbn [data].
      rewrite (length_vec_remove _ _ _ Hv). fold (count_lines b2). lia.
    + injection Hr as <-. lia.
  - destruct (Hf eq_refl) as [-> _]. exact Hc.
Qed.

Lemma split_inclusive_line (l rest : list ascii) :
  ~ In nl l -> split_inclusive (l ++ nl :: rest) = (l ++ [nl]) :: split_inclusive rest.
Proof.
  induction l as [|c t IH]; intros Hn; cbn [app split_inclusive].
  - destruct (ascii_dec nl nl); [reflexivity | congruence].
  - destruct (ascii_dec c nl) as [->|]; [exfalso; apply Hn; left; reflexivity|].
    rewrite IH by (intros H; apply Hn; right; exact H). reflexivity.
Qed.

(** Loading what [save_to_file] writes gives the buffer back when no line
    holds a ['\n'] and no line ends in ['\r']. *)
Theorem load_after_save (b : Buffer) :
  (forall l, In l (data b) -> ~ In nl l /\ forall p, l <> p ++ [cr]) ->
  from_string (serialize b) = b.
Proof.
  destruct b as [d]; unfold from_string, serialize, lines; cbn [data].
  intros H. f_equal. rewrite map_id.
  induction d as [|l d IH]; [reflexivity|].
  destruct (H l (or_introl eq_refl)) as [Hn Hcr].
  cbn [flat_map]. rewrite <- app_assoc; cbn [app].
  rewrite split_inclusive_line by exact Hn. cbn [map].
  rewrite IH by (intros l' Hl'; apply H; right; exact Hl').
  f_equal. unfold line_of_piece. rewrite strip_suffix_snoc.
  destruct (ascii_dec nl nl); [|congruence].
  destruct (strip_suffix cr l) as [q|] eqn:Hs; [|reflexivity].
  apply strip_suffix_Some in Hs. exfalso; exact (Hcr q Hs).
Qed.

(** A successful backspace removes a line exactly when the cursor is at column
    [0] of an existing row other than the first; otherwise the line count is
    unchanged. *)
Theorem backspace_line_count (b b' : Buffer) (c : Cursor) (r : BufferChanges.t) :
  backspace b c = Some (b', r) ->
  count_lines b' =
  if (x c =? 0) && (0 <? y c) && (y c <? count_lines b)
  then count_lines b - 1 else count_lines b.
Proof. apply backspace_count_lines. Qed.

Lemma apply_char_then_backspace_witness :
  cursor_valid something_else (Cursor_new 4 1) /\
  (r <- apply_command (Key.Char "!"%char) something_else (Cursor_new 4 1) ;;
   let '(b1, _, c1) := r in apply_command Key.Backspace b1 c1)
  = Some (something_else, BufferChanges.Buffer, Cursor_new 4 1).
Proof.
  assert (H : cursor_valid something_else (Cursor_new 4 1))
    by (unfold cursor_valid; cbn; lia).
  split; [exact H | exact (apply_char_then_backspace something_else _ "!"%char H)].
Defined.

Lemma apply_enter_then_backspace_witness :
  cursor_valid something_else (Cursor_new 2 0) /\
  (r <- apply_command Key.Enter something_else (Cursor_new 2 0) ;;
   let '(b1, _, c1) := r in apply_command Key.Backspace b1 c1)
  = Some (something_else, BufferChanges.Buffer, Cursor_new 2 0).
Proof.
  assert (H : cursor_valid something_else (Cursor_new 2 0))
    by (unfold cursor_valid; cbn; lia).
  split; [exact H | exact (apply_enter_then_backspace something_else _ H)].
Defined.

Lemma apply_command_never_char_change_witness :
  apply_command (Key.Char "a"%char) something_else (Cursor_new 0 0)
  = Some (mkBuffer [str "aSomething"; str "Else"], BufferChanges.Lines [0], Cursor_new 1 0)
  /\ forall p, BufferChanges.Lines [0] <> BufferChanges.Char p.
Proof.
  assert (H : apply_command (Key.Char "a"%char) something_else (Cursor_new 0 0)
    = Some (mkBuffer [str "aSomething"; str "Else"], BufferChanges.Lines [0], Cursor_new 1 0))
    by reflexivity.
  split; [exact H | exact (apply_command_never_char_change _ _ _ _ _ _ H)].
Defined.

Lemma backspace_past_end_of_row_witness :
  nth_error (data something_else) (y (Cursor_new 9 1)) = Some (str "Else")
  /\ length (str "Else") < x (Cursor_new 9 1)
  /\ apply_command Key.Backspace something_else (Cursor_new 9 1)
     = Some (something_else, BufferChanges.None, Cursor_new 8 1).
Proof.
  assert (H1 : nth_error (data something_else) (y (Cursor_new 9 1)) = Some (str "Else"))
    by reflexivity.
  assert (H2 : length (str "Else") < x (Cursor_new 9 1)) by (cbn; lia).
  split; [exact H1|]. split; [exact H2|].
  exact (backspace_past_end_of_row something_else (Cursor_new 9 1) _ H1 H2).
Defined.

Lemma backspace_line_count_witness :
  backspace something_else (Cursor_new 0 1)
  = Some (mkBuffer [str "SomethingElse"], BufferChanges.Buffer)
  /\ count_lines (mkBuffer [str "SomethingElse"]) = 1.
Proof.
  assert (H : backspace something_else (Cursor_new 0 1)
    = Some (mkBuffer [str "SomethingElse"], BufferChanges.Buffer)) by reflexivity.
  split; [exact H | exact (backspace_line_count _ _ _ _ H)].
Defined.

Lemma load_after_save_witness :
  from_string (serialize something_else) = something_else.
Proof.
  apply load_after_save. cbn [data something_else In].
  intros l [<-|[<-|[]]]; (split; [cbn; intuition discriminate|]);
    intros p Hp; pose proof (strip_suffix_snoc cr cr p) as H;
    rewrite <- Hp in H; vm_compute in H; discriminate H.
Defined.

(** ** The event loop *)










(** ** Rendering a line *)




Lemma split_space_join (s : list ascii) :
  match split_space s with
  | w :: ws => w ++ concat (map (fun w => space :: w) ws) = s
               /\ (w = [] <-> leading_space_or_empty s = true)
  | [] => False
  end.
Proof.
  induction s as [|c t IH]; cbn [split_space].
  - split; [reflexivity | split; reflexivity].
  - destruct (ascii_dec c space) as [->|Hc].
    + destruct (split_space t) as [|w ws]; [destruct IH|].
      destruct IH as [IH _]. cbn [app map concat]. rewrite IH. split; [reflexivity|].
      cbn. destruct (ascii_dec space space); [|congruence]. split; reflexivity.
    + destruct (split_space t) as [|w ws]; [destruct IH|].
      destruct IH as [IH _]. cbn [app]. rewrite IH. split; [reflexivity|].
      cbn. destruct (ascii_dec c space); [congruence|]. split; discriminate.
Qed.


Lemma render_chars_in_char (offset : nat) (is_string : bool) (word : list ascii) :
  let '(prints, _, _, is_char) := render_chars offset is_string true word in
  is_char = true /\ Forall (fun p => print_color p = Yellow) prints.
Proof.
  revert offset is_string; induction word as [|c w IH]; intros offset s.
  - split; [reflexivity | constructor].
  - cbn [render_chars].
    assert (Hp : exists s', paint s true c = (Yellow, s', true)).
    { unfold paint. rewrite !andb_false_r, orb_true_r.
      destruct s; [cbn [andb]; destruct (Ascii.eqb c quote)|]; eexists; reflexivity. }
    destruct Hp as [s' ->]. specialize (IH (S offset) s').
    destruct (render_chars (S offset) s' true w) as [[[ps o] s2] ch2].
    destruct IH as [-> IH]. split; [reflexivity | constructor; [reflexivity | exact IH]].
Qed.

Lemma render_words_in_char (words : list (list ascii)) (offset : nat)
    (is_comment is_string : bool) :
  Forall not_plain (render_words words offset is_comment is_string true).
Proof.
  revert offset is_comment is_string.
  induction words as [|w ws IH]; intros offset cm s; [constructor|].
  cbn [render_words].
  assert (Hword : forall col cm', col <> Red -> col <> Default ->
    let '(prints, n) := render_word w offset col in
    Forall not_plain (prints ++ render_words ws (offset + n) cm' s true)).
  { intros col cm' H1 H2. unfold render_word. apply Forall_app. split; [|apply IH].
    constructor; [|constructor]. split; [exact H1 | intros H; contradiction]. }
  destruct (cm || str_eqb w comment_start || starts_with comment_start w).
  { specialize (Hword Blue true ltac:(discriminate) ltac:(discriminate)).
    destruct (render_word w offset Blue). exact Hword. }
  destruct (contains RUST_KEYWORDS w).
  { specialize (Hword Green cm ltac:(discriminate) ltac:(discriminate)).
    destruct (render_word w offset Green). exact Hword. }
  destruct (length w =? 0).
  { specialize (Hword Green cm ltac:(discriminate) ltac:(discriminate)).
    destruct (render_word w offset Green). exact Hword. }
  set (sp := if negb (offset =? 0) then ([(offset, Default, [space])], offset + 1)
             else ([], offset)).
  assert (Hsp : Forall not_plain (fst sp)).
  { unfold sp; destruct (negb (offset =? 0)); cbn [fst]; repeat constructor.
    - discriminate. }
  destruct sp as [sps off1].
  pose proof (render_chars_in_char off1 s w) as Hc.
  destruct (render_chars off1 s true w) as [[[ps o] s2] ch2].
  destruct Hc as [-> Hc].
  apply Forall_app; split; [exact Hsp|]. apply Forall_app; split; [|apply IH].
  eapply Forall_impl; [|exact Hc]. intros p Hp. split; rewrite Hp; discriminate.
Qed.

(** The keywords all begin with a letter. *)
Lemma keyword_not_quoted (w : list ascii) : contains RUST_KEYWORDS (apostrophe :: w) = false.
Proof.
  unfold contains. destruct (in_dec _ _ _) as [H|H]; [|reflexivity].
  exfalso. cbn in H. repeat destruct H as [H|H]; try discriminate H; exact H.
Qed.

(** In [render_line] a character literal never closes: in a line starting
    with ['\''], no print after the row is cleared is red, and the only prints
    in the default colour are the spaces between words (every character of the
    char-by-char path is yellow, the closing-quote branch being unreachable). *)
Theorem render_line_char_literal_never_closes (width : nat) (rest : list ascii) :
  Forall not_plain
    (skipn (length (clear_line width)) (render_line width (apostrophe :: rest))).
Proof.
  unfold render_line. rewrite skipn_app, skipn_all, Nat.sub_diag. cbn [app skipn].
  cbn [split_space]. destruct (ascii_dec apostrophe space) as [H|_]; [discriminate H|].
  pose proof (split_space_join rest) as Hj.
  destruct (split_space rest) as [|w ws]; [destruct Hj|].
  cbn [render_words orb]. rewrite keyword_not_quoted. cbn -[render_chars render_words].
  assert (Hp : paint false false apostrophe = (Yellow, false, true)) by reflexivity.
  cbn [render_chars]. rewrite Hp.
  pose proof (render_chars_in_char 1 false w) as Hc.
  destruct (render_chars 1 false true w) as [[[ps o] s2] ch2].
  destruct Hc as [-> Hc].
  constructor; [split; discriminate|].
  apply Forall_app; split; [|apply render_words_in_char].
  eapply Forall_impl; [|exact Hc]. intros p Hq. split; rewrite Hq; discriminate.
Qed.

(** ** Line accessors *)

(** [get_line_length] is the length of [get_line]: both read a missing row
    as empty. *)
Theorem get_line_length_is_length (b : Buffer) (line_number : nat) :
  get_line_length b line_number = length (get_line b line_number).
Proof.
  unfold get_line_length, get_line.
  destruct (Nat.leb_spec (length (data b)) line_number) as [H|H].
  - rewrite (proj2 (nth_error_None _ _) H). reflexivity.
  - destruct (nth_error (data b) line_number); reflexivity.
Qed.

(** [fill_lines] only appends empty lines, until row [line_number] exists:
    existing rows are untouched, and a buffer that already has that row is
    left as it is. *)
Theorem fill_lines_appends_empty_rows (b : Buffer) (line_number : nat) :
  data (fill_lines b line_number)
  = data b ++ repeat [] (S line_number - count_lines b).
Proof. apply fill_lines_spec. Qed.

(** Cutting row [y] at [offset] with [truncate_line] and the rest returned by
    [get_line_data_from_offset] splits the row exactly: the kept prefix
    followed by the rest is the row; the other rows are unchanged. *)
Theorem truncate_and_rest_split_row (b b' : Buffer) (line_number offset : nat)
    (rest : list ascii) :
  get_line_data_from_offset b line_number offset = Some rest ->
  truncate_line b line_number offset = Some b' ->
  get_line b' line_number ++ rest = get_line b line_number
  /\ length (get_line b' line_number) = offset
  /\ forall n, n <> line_number -> get_line b' n = get_line b n.
Proof.
  unfold get_line_data_from_offset, truncate_line, get_line.
  destruct (nth_error (data b) line_number) as [l|] eqn:Hl; [|discriminate].
  destruct (Nat.leb_spec offset (length l)); [|discriminate].
  intros Hr Ht. injection Hr as <-. injection Ht as <-. cbn [data].
  apply nth_error_split in Hl as (pre & post & Hd & Hlen).
  rewrite Hd, <- Hlen, replace_nth_app, !nth_error_prefix.
  split; [apply firstn_skipn|]. split; [rewrite length_firstn; lia|].
  intros n Hn. destruct (Nat.lt_ge_cases n (length pre)).
  - rewrite !nth_error_app1 by lia. reflexivity.
  - rewrite !nth_error_app2 by lia.
    destruct (n - length pre) as [|k] eqn:E; [lia | reflexivity].
Qed.

Lemma truncate_and_rest_split_row_witness :
  get_line_data_from_offset something_else 0 4 = Some (str "thing")
  /\ truncate_line something_else 0 4 = Some (mkBuffer [str "Some"; str "Else"])
  /\ get_line (mkBuffer [str "Some"; str "Else"]) 0 ++ str "thing"
     = get_line something_else 0.
Proof.
  assert (H1 : get_line_data_from_offset something_else 0 4 = Some (str "thing"))
    by reflexivity.
  assert (H2 : truncate_line something_else 0 4 = Some (mkBuffer [str "Some"; str "Else"]))
    by reflexivity.
  split; [exact H1|]. split; [exact H2|].
  exact (proj1 (truncate_and_rest_split_row _ _ _ _ _ H1 H2)).
Defined.
